(** * seq66, contrib/scripts/notemapgen.py: the test notemap generator

    The script opens [test.notemap] for writing, writes a two-line header,
    one seven-line section per drum note 12..127, a trailing modeline, and
    closes the file.  It is embedded here as a program of a small
    state-and-exception monad over a model of the process' world: the files
    of the working directory, the table of open file objects, the
    command line, the environment and the outcomes of the operating-system
    calls still to come.

    Text is modelled at the level of the characters handed to [file.write];
    the platform's encoding and newline translation of text-mode files (the
    identity on ASCII text where [os.linesep] is a line feed) and the
    buffering between [write] and the disk are not modelled. *)

From Stdlib Require Import Ascii String ZArith List Sorted.
From stdpp Require Import base option list gmap strings pretty.

Local Open Scope Z_scope.

(** ** Python values *)

Module Py.

(** The line feed the source writes as backslash-n, the carriage return it
    never writes, and the double quote it writes as backslash-quote. *)
Definition LF : ascii := "010"%char.
Definition CR : ascii := "013"%char.
Definition DQ : ascii := "034"%char.

Definition nl : string := String LF "".
Definition quot : string := String DQ "".

(** [str(x)] on an [int]: decimal digits, a leading minus sign below 0. *)
Definition str (x : Z) : string := pretty x.

(** [range(lo, hi)]: lo, lo+1, ..., hi-1; empty when hi <= lo. *)
Definition range (lo hi : Z) : list Z := seqZ lo (hi - lo).

(** [len(s)] *)
Definition len (s : string) : Z := Z.of_nat (String.length s).

Inductive exn : Type :=
| OSError (errno : nat)
| ValueError.

Inductive result (A : Type) : Type :=
| Ok (a : A)
| Raise (e : exn).
Arguments Ok {A} a.
Arguments Raise {A} e.

(** What the process did, in order. *)
Inductive event : Type :=
| EvOpen (path : string) (fd : nat)
| EvWrite (fd : nat) (s : string)
| EvClose (fd : nat)
| EvFail (errno : nat).

(** The world of one process.  [files] are the files of the current
    working directory, by name.  [pending] lists the outcomes of the
    operating-system calls to come, oldest first: [None] lets a call
    succeed, [Some errno] makes it fail; calls beyond the list succeed. *)
Record World : Type := mkWorld {
  files : gmap string string;
  open_files : gmap nat string;
  next_fd : nat;
  environ : gmap string string;
  argv : list string;
  pending : list (option nat);
  log : list event
}.

Definition IO (A : Type) : Type := World → result A * World.

Definition ret {A} (a : A) : IO A := λ w, (Ok a, w).

(** Sequencing: an exception of the first part skips the rest. *)
Definition bind {A B} (k : A → IO B) (m : IO A) : IO B := λ w,
  match m w with
  | (Ok a, w1) => k a w1
  | (Raise e, w1) => (Raise e, w1)
  end.

#[global] Instance IO_ret : MRet IO := @ret.
#[global] Instance IO_bind : MBind IO := @bind.

(** [try: m except: h] -- the script has none; the combinator is here
    to say what catching would be. *)
Definition try_except {A} (m : IO A) (h : exn → IO A) : IO A := λ w,
  match m w with
  | (Ok a, w1) => (Ok a, w1)
  | (Raise e, w1) => h e w1
  end.

(** The status the interpreter exits with. *)
Definition exit_status {A} (r : result A) : Z :=
  match r with Ok _ => 0 | Raise _ => 1 end.

(** One call into the operating system: it takes the next outcome. *)
Definition oscall : IO unit := λ w,
  match pending w with
  | [] => (Ok tt, w)
  | None :: rest =>
      (Ok tt, mkWorld (files w) (open_files w) (next_fd w) (environ w)
                      (argv w) rest (log w))
  | Some errno :: rest =>
      (Raise (OSError errno),
       mkWorld (files w) (open_files w) (next_fd w) (environ w) (argv w)
               rest (log w ++ [EvFail errno]))
  end.

(** A file object: its descriptor and its [name] attribute. *)
Record File : Type := mkFile { fileno : nat; name : string }.

(** What [open(path, mode)] leaves in the file: mode "w" creates or
    truncates, mode "a" creates or keeps. *)
Definition opened_content (mode : string) (old : option string)
  : option string :=
  if String.eqb mode "w" then Some ""
  else if String.eqb mode "a" then Some (default "" old)
  else None.

(** [open(path, mode)] for the writing modes; another mode string is
    refused before the operating system is asked. *)
Definition open (path mode : string) : IO File := λ w,
  match opened_content mode (files w !! path) with
  | None => (Raise ValueError, w)
  | Some c =>
      match oscall w with
      | (Raise e, w1) => (Raise e, w1)
      | (Ok _, w1) =>
          let fd := next_fd w1 in
          (Ok (mkFile fd path),
           mkWorld (<[path := c]> (files w1)) (<[fd := path]> (open_files w1))
                   (S fd) (environ w1) (argv w1) (pending w1)
                   (log w1 ++ [EvOpen path fd]))
      end
  end.

(** [file.write(s)]: appends [s], returns the number of characters; on a
    closed file object it raises ValueError without a system call.  The
    buffer of the file object is not modelled: every [write] is a call that
    may fail, and the file of the model holds the text handed over so far,
    which is what the file on disk holds once [close] has gone through.
    What is on disk when a call has failed is outside the model. *)
Definition write (file : File) (s : string) : IO Z := λ w,
  match open_files w !! fileno file with
  | None => (Raise ValueError, w)
  | Some path =>
      match oscall w with
      | (Raise e, w1) => (Raise e, w1)
      | (Ok _, w1) =>
          (Ok (len s),
           mkWorld (alter (λ c, c +:+ s) path (files w1)) (open_files w1)
                   (next_fd w1) (environ w1) (argv w1) (pending w1)
                   (log w1 ++ [EvWrite (fileno file) s]))
      end
  end.

(** [file.close()]: nothing on a closed file object; otherwise the object
    is released, also when the final flush fails.  After a failed [close]
    the file of the model still holds the text handed over; how much of it
    the flush got onto the disk is outside the model. *)
Definition close (file : File) : IO unit := λ w,
  match open_files w !! fileno file with
  | None => (Ok tt, w)
  | Some _ =>
      oscall (mkWorld (files w) (delete (fileno file) (open_files w))
                      (next_fd w) (environ w) (argv w) (pending w)
                      (log w ++ [EvClose (fileno file)]))
  end.

(** [os.environ.get(k)] and [sys.argv]: what the imported modules offer
    and the script never asks for. *)
Definition getenv (k : string) : IO (option string) := λ w,
  (Ok (environ w !! k), w).
Definition sys_argv : IO (list string) := λ w, (Ok (argv w), w).

(** [for x in xs: body]; what the last statement of the body returns is
    dropped. *)
Fixpoint for_ {A B} (xs : list A) (body : A → IO B) : IO unit :=
  match xs with
  | [] => mret ()
  | x :: rest => _ ← body x; for_ rest body
  end.

End Py.

Import Py.

(** ** The script *)

(** notemapgen.py, lines 24-37.  The three imports (os, string, sys) bind
    module names the script never uses. *)
Definition main : IO unit :=
  file ← open "test.notemap" "w";
  _ ← write file ("Test notemap file: " +:+ name file +:+ nl +:+ nl);
  for_ (range 12 128) (λ x,
    _ ← write file ("[Drum " +:+ str x +:+ "]" +:+ nl +:+ nl);
    _ ← write file ("dev-name = " +:+ quot +:+ "Dev note " +:+ str x +:+ quot +:+ nl);
    _ ← write file ("gm-name = " +:+ quot +:+ "GM note " +:+ str (x - 12) +:+ quot +:+ nl);
    _ ← write file ("dev-note = " +:+ str x +:+ nl);
    write file ("gm-note = " +:+ str (x - 12) +:+ nl +:+ nl)) ;;
  _ ← write file "# vim: sw=4 ts=4 wm=4 et ft=dosini";
  close file.

(** ** The strings the script writes, in order

    These name the arguments of the [write] calls of [main]; that [main] is
    [open], [write_all] of [payload] and [close] is lemma [main_unfold]. *)

Definition path : string := "test.notemap".

Definition header_text : string :=
  "Test notemap file: " +:+ path +:+ nl +:+ nl.

(** The five strings of one pass through the loop body. *)
Definition section_writes (x : Z) : list string :=
  [ "[Drum " +:+ str x +:+ "]" +:+ nl +:+ nl;
    "dev-name = " +:+ quot +:+ "Dev note " +:+ str x +:+ quot +:+ nl;
    "gm-name = " +:+ quot +:+ "GM note " +:+ str (x - 12) +:+ quot +:+ nl;
    "dev-note = " +:+ str x +:+ nl;
    "gm-note = " +:+ str (x - 12) +:+ nl +:+ nl ].

Definition trailer_text : string := "# vim: sw=4 ts=4 wm=4 et ft=dosini".

Definition join (ss : list string) : string := foldr String.append "" ss.

Definition section_text (x : Z) : string := join (section_writes x).

Definition payload : list string :=
  header_text :: (range 12 128 ≫= section_writes) ++ [trailer_text].

Definition notemap_text : string := join payload.

(** A run of writes to one file object, stopping at the first exception. *)
Fixpoint write_all (file : File) (ss : list string) : IO unit :=
  match ss with
  | [] => mret ()
  | s :: rest => _ ← write file s; write_all file rest
  end.

(** ** Outcomes of the operating-system calls *)

(** The first failing call among the next [k]: its position and errno. *)
Fixpoint first_fault (k : nat) (l : list (option nat)) : option (nat * nat) :=
  match k, l with
  | O, _ => None
  | S _, [] => None
  | S _, Some errno :: _ => Some (O, errno)
  | S k', None :: rest =>
      match first_fault k' rest with
      | Some (i, errno) => Some (S i, errno)
      | None => None
      end
  end.

(** The events a run of the script adds to the log of [w]. *)
Definition events_of_run (w : World) : list event :=
  drop (length (log w)) (log (snd (main w))).

Definition is_close (ev : event) : bool :=
  match ev with EvClose _ => true | _ => false end.

Definition is_open (ev : event) : bool :=
  match ev with EvOpen _ _ => true | _ => false end.

(** An event that touches nothing but the file [p] through descriptor [fd]. *)
Definition event_on (p : string) (fd : nat) (ev : event) : Prop :=
  match ev with
  | EvOpen p' fd' => p' = p ∧ fd' = fd
  | EvWrite fd' _ => fd' = fd
  | EvClose fd' => fd' = fd
  | EvFail _ => True
  end.

(** The state a run of the script is started in, with the command line and
    the environment replaced. *)
Definition with_args (av : list string) (env : gmap string string)
  (w : World) : World :=
  mkWorld (files w) (open_files w) (next_fd w) env av (pending w) (log w).

(** The same, with the files of the directory replaced. *)
Definition with_files (fs : gmap string string) (w : World) : World :=
  mkWorld fs (open_files w) (next_fd w) (environ w) (argv w) (pending w)
          (log w).

(** ** Reading a notemap back *)

(** The lines of a text, as [text.split] at line feeds gives them: [k] line
    feeds make [k + 1] lines, the last one the unterminated rest. *)
Fixpoint lines (s : string) : list string :=
  match s with
  | EmptyString => [""]
  | String c rest =>
      if Ascii.eqb c LF then "" :: lines rest
      else match lines rest with
           | l :: ls => String c l :: ls
           | [] => [String c ""]
           end
  end.

Fixpoint count_char (c : ascii) (s : string) : nat :=
  match s with
  | EmptyString => O
  | String c' rest => (if Ascii.eqb c' c then 1 else 0) + count_char c rest
  end%nat.

Definition chars (s : string) : list ascii := list_ascii_of_string s.

(** Printable ASCII (space to tilde) or a line feed. *)
Definition plain_char (c : ascii) : bool :=
  Ascii.eqb c LF || ((32 <=? nat_of_ascii c)%nat && (nat_of_ascii c <=? 126)%nat).

Definition ends_with (suffix s : string) : bool :=
  String.eqb suffix
    (String.substring (String.length s - String.length suffix)
                      (String.length suffix) s)
  && (String.length suffix <=? String.length s)%nat.

Definition is_header (line : string) : bool := String.prefix "[" line.
Definition is_comment (line : string) : bool := String.prefix "#" line.

(** The section blocks of a dosini text: a block starts at a header line
    and runs up to the next header line; comment lines belong to no block,
    nor do the lines before the first header.  [split_sections] returns the
    lines before the first header and the blocks. *)
Fixpoint split_sections (ls : list string) : list string * list (list string) :=
  match ls with
  | [] => ([], [])
  | l :: rest =>
      let '(body, secs) := split_sections rest in
      if is_header l then ([], (l :: body) :: secs)
      else if is_comment l then (body, secs)
      else (l :: body, secs)
  end.

Definition sections (text : string) : list (list string) :=
  snd (split_sections (lines text)).

Definition section_headers (text : string) : list string :=
  List.filter is_header (lines text).

(** Decimal digits to a number; [None] on anything else. *)
Fixpoint digits_go (acc : Z) (s : string) : option Z :=
  match s with
  | EmptyString => Some acc
  | String c rest =>
      let d := nat_of_ascii c in
      if ((48 <=? d) && (d <=? 57))%nat
      then digits_go (10 * acc + Z.of_nat (d - 48)) rest
      else None
  end.

Definition int_of (s : string) : option Z :=
  match s with
  | EmptyString => None
  | _ => digits_go 0 s
  end.

(** Strips [pre] from the front of [s]. *)
Fixpoint strip_prefix (pre s : string) : option string :=
  match pre, s with
  | EmptyString, _ => Some s
  | String a pre', String b s' =>
      if Ascii.eqb a b then strip_prefix pre' s' else None
  | String _ _, EmptyString => None
  end.

Definition strip_suffix (suf s : string) : option string :=
  String.rev <$> strip_prefix (String.rev suf) (String.rev s).

(** The number N of a header line [Drum N]. *)
Definition drum_number (line : string) : option Z :=
  match strip_prefix "[Drum " line with
  | Some rest =>
      match strip_suffix "]" rest with
      | Some ds => int_of ds
      | None => None
      end
  | None => None
  end.

(** The value of [key = value] in a block: the first line that starts with
    the key and the equals sign. *)
Fixpoint field (key : string) (block : list string) : option string :=
  match block with
  | [] => None
  | l :: rest =>
      match strip_prefix (key +:+ " = ") l with
      | Some v => Some v
      | None => field key rest
      end
  end.

Definition headed_by (N : Z) (block : list string) : bool :=
  match block with
  | l :: _ => bool_decide (drum_number l = Some N)
  | [] => false
  end.

(** The blocks headed [Drum N]. *)
Definition drum_sections (N : Z) (text : string) : list (list string) :=
  List.filter (headed_by N) (sections text).

(** A number field of a block. *)
Definition int_field (key : string) (block : list string) : option Z :=
  match field key block with
  | Some v => int_of v
  | None => None
  end.

(** The seven lines the block of N is to consist of. *)
Definition section_lines (N : Z) : list string :=
  [ "[Drum " +:+ str N +:+ "]";
    "";
    "dev-name = " +:+ quot +:+ "Dev note " +:+ str N +:+ quot;
    "gm-name = " +:+ quot +:+ "GM note " +:+ str (N - 12) +:+ quot;
    "dev-note = " +:+ str N;
    "gm-note = " +:+ str (N - 12);
    "" ].

(** ** Worlds along a run *)

(** The world after the strings [ss] went to the file [p] through
    descriptor [fd], [used] operating-system calls were made and the
    events [tail] followed the writes. *)
Definition wrote (fd : nat) (p : string) (ss : list string) (used : nat)
  (tail : list event) (w : World) : World :=
  mkWorld (alter (λ c, c +:+ join ss) p (files w)) (open_files w) (next_fd w)
          (environ w) (argv w) (drop used (pending w))
          (log w ++ (EvWrite fd <$> ss) ++ tail).

(** The world after [open] of [path] for writing went through, after it
    failed with [errno], and after [close] of descriptor [fd], the events
    [tail] following. *)
Definition opened (w : World) : World :=
  mkWorld (<[path := ""]> (files w)) (<[next_fd w := path]> (open_files w))
          (S (next_fd w)) (environ w) (argv w) (drop 1 (pending w))
          (log w ++ [EvOpen path (next_fd w)]).

Definition failed_open (errno : nat) (w : World) : World :=
  mkWorld (files w) (open_files w) (next_fd w) (environ w) (argv w)
          (drop 1 (pending w)) (log w ++ [EvFail errno]).

Definition closed (fd : nat) (tail : list event) (w : World) : World :=
  mkWorld (files w) (delete fd (open_files w)) (next_fd w) (environ w)
          (argv w) (drop 1 (pending w)) (log w ++ EvClose fd :: tail).

(** What opening [path], writing [ss] and closing comes to, by the first
    failing call among the [2 + length ss] the program makes. *)
Definition outcome_of (ss : list string) (w : World) : result () * World :=
  let fd := next_fd w in
  let n := length ss in
  match first_fault (S (S n)) (pending w) with
  | None => (Ok (), closed fd [] (wrote fd path ss n [] (opened w)))
  | Some (O, e) => (Raise (OSError e), failed_open e w)
  | Some (S i, e) =>
      (Raise (OSError e),
       if (i <? n)%nat
       then wrote fd path (take i ss) (S i) [EvFail e] (opened w)
       else closed fd [EvFail e] (wrote fd path ss n [] (opened w)))
  end.

(** The number of operating-system calls of a run without a failure: one
    [open], the writes, one [close]. *)
Definition calls : nat := S (S (length payload)).

(** The events of opening [path], writing [ss] and closing, by the first
    failing call. *)
Definition run_events (ss : list string) (w : World) : list event :=
  let fd := next_fd w in
  let n := length ss in
  match first_fault (S (S n)) (pending w) with
  | None => EvOpen path fd :: (EvWrite fd <$> ss) ++ [EvClose fd]
  | Some (O, e) => [EvFail e]
  | Some (S i, e) =>
      if (i <? n)%nat
      then EvOpen path fd :: (EvWrite fd <$> take i ss) ++ [EvFail e]
      else EvOpen path fd :: (EvWrite fd <$> ss) ++ [EvClose fd; EvFail e]
  end.

(** The characters of the strings written, in the order of the events. *)
Definition written (evs : list event) : string :=
  join (omap (λ ev, match ev with EvWrite _ s => Some s | _ => None end) evs).

Definition is_fail (ev : event) : bool :=
  match ev with EvFail _ => true | _ => false end.

Definition count_events (f : event → bool) (evs : list event) : nat :=
  length (List.filter f evs).

(** Every character is a line feed or printable ASCII. *)
Definition plain (s : string) : Prop :=
  ∀ c, c ∈ chars s → c = LF ∨ (32 ≤ nat_of_ascii c ≤ 126)%nat.

(** What is asked of a string handed to [write]. *)
Definition clean (s : string) : Prop := plain s ∧ CR ∉ chars s.

Definition clean_event (ev : event) : Prop :=
  match ev with EvWrite _ s => clean s | _ => True end.

(** The header line of the block of N, and the numbers of the header lines
    of a text, in the order of the text. *)
Definition header_line (N : Z) : string := "[Drum " +:+ str N +:+ "]".

Definition drum_numbers (text : string) : list Z :=
  omap drum_number (section_headers text).

Definition plain_text (s : string) : bool := forallb plain_char (chars s).

(** ** Sample worlds *)

(** A directory with an older notemap and another file; every call
    succeeds. *)
Definition w_quiet : World :=
  mkWorld (<["test.notemap" := "stale"]> (<["seq66.rc" := "[Seq66]"]> ∅))
          ∅ 3 (<["HOME" := "/home/user"]> ∅) ["notemapgen.py"; "--verbose"]
          [] [].

(** The same directory; the fourth [write] (call 4, the [open] being call
    0) raises OSError 28. *)
Definition w_disk_full : World :=
  mkWorld (<["test.notemap" := "stale"]> (<["seq66.rc" := "[Seq66]"]> ∅))
          ∅ 3 (<["HOME" := "/home/user"]> ∅) ["notemapgen.py"]
          [None; None; None; None; Some 28%nat; None] [].

(** Another process altogether: an empty directory, other arguments,
    another environment, descriptors and log already in use. *)
Definition w_other : World :=
  mkWorld ∅ (<[3%nat := "seq66.log"]> ∅) 7 (<["LANG" := "C"]> ∅)
          ["notemapgen.py"; "-o"; "other.notemap"] [None; None]
          [EvOpen "seq66.log" 3].

(** A directory that may not be written to (errno 13). *)
Definition w_read_only : World :=
  mkWorld (<["seq66.rc" := "[Seq66]"]> ∅) ∅ 3 ∅ ["notemapgen.py"]
          [Some 13%nat] [].

(** ** The note map a notemap file holds *)

Definition is_write (ev : event) : bool :=
  match ev with EvWrite _ _ => true | _ => false end.

(** The pair (dev-note, gm-note) of a block, if both are numbers. *)
Definition note_pair (block : list string) : option (Z * Z) :=
  match int_field "dev-note" block, int_field "gm-note" block with
  | Some d, Some g => Some (d, g)
  | _, _ => None
  end.

(** The pairs of the blocks of a text, in the order of the text. *)
Definition note_map (text : string) : list (Z * Z) :=
  omap note_pair (sections text).

(** A directory whose older notemap cannot be opened for writing. *)
Definition w_locked : World :=
  mkWorld (<["test.notemap" := "stale"]> ∅) ∅ 3 ∅ ["notemapgen.py"]
          [Some 13%nat; None] [].

(** * Lemmas *)
Section Faults.

Implicit Types (l : list (option nat)) (k i e : nat).

Lemma first_fault_nil k : first_fault k [] = None.
Proof. by destruct k. Qed.

Lemma first_fault_lt k l i e : first_fault k l = Some (i, e) → (i < k)%nat.
Proof.
  revert l i e. induction k as [|k IH]; intros [|[e'|] l] i e; simpl; try done.
  - intros [= <- _]. lia.
  - destruct (first_fault k l) as [[j e'']|] eqn:E; [|done].
    intros [= <- _]. apply IH in E. lia.
Qed.

Lemma first_fault_lookup k l i e :
  first_fault k l = Some (i, e) → l !! i = Some (Some e).
Proof.
  revert l i e. induction k as [|k IH]; intros [|[e'|] l] i e; simpl; try done.
  - by intros [= <- <-].
  - destruct (first_fault k l) as [[j e'']|] eqn:E; [|done].
    intros [= <- <-]. simpl. by apply IH.
Qed.

Lemma first_fault_calm k l :
  first_fault (S k) (None :: l) =
    match first_fault k l with
    | Some (i, e) => Some (S i, e)
    | None => None
    end.
Proof. reflexivity. Qed.

(** One more call: the verdict so far stands, and a calm prefix is
    extended by the next outcome. *)
Lemma first_fault_S k l :
  first_fault (S k) l =
    match first_fault k l with
    | Some r => Some r
    | None => match drop k l with
              | Some e :: _ => Some (k, e)
              | _ => None
              end
    end.
Proof.
  revert l. induction k as [|k IH]; intros l.
  - by destruct l as [|[e|] l].
  - destruct l as [|[e|] l]; try done.
    rewrite first_fault_calm, IH. simpl. destruct (first_fault k l) as [[j e'']|]; [done|].
    by destruct (drop k l) as [|[e|] ?].
Qed.

(** A calm prefix of [i] calls followed by a failing one. *)
Lemma first_fault_replicate k i e l :
  (i < k)%nat →
  first_fault k (replicate i None ++ Some e :: l) = Some (i, e).
Proof.
  revert k. induction i as [|i IH]; intros [|k] Hlt; try lia; [done|].
  simpl. rewrite IH; [done|lia].
Qed.

Lemma drop_replicate_fault i e l :
  drop (S i) (replicate i None ++ Some e :: l) = l.
Proof. induction i as [|i IH]; [done|]. by simpl in *. Qed.

End Faults.

Section Monad.

(** Running a sequence: by cases on the first part. *)
Lemma run_bind {A B} (m : IO A) (k : A → IO B) w :
  (m ≫= k) w =
    match m w with
    | (Ok a, w1) => k a w1
    | (Raise e, w1) => (Raise e, w1)
    end.
Proof. reflexivity. Qed.

Lemma write_all_app file ss1 ss2 w :
  write_all file (ss1 ++ ss2) w = (write_all file ss1 ;; write_all file ss2) w.
Proof.
  revert w. induction ss1 as [|s ss1 IH]; intros w; [done|].
  simpl. rewrite !run_bind. destruct (write file s w) as [[z|e] w1]; [|done].
  rewrite IH. by rewrite run_bind.
Qed.

End Monad.

(** One [write] of a sequence: on an exception both sides stop. *)
Ltac step_write :=
  rewrite ?run_bind; cbv beta iota;
  match goal with
  | |- context [write ?f ?s ?w] =>
      destruct (write f s w) as [[?|?] ?]; [|done]
  end; cbv beta iota.

Section Writes.

Lemma append_cons c (s t : string) : String c s +:+ t = String c (s +:+ t).
Proof. reflexivity. Qed.

Lemma append_empty_r (s : string) : s +:+ "" = s.
Proof. induction s as [|c s IH]; [done|]. by rewrite append_cons, IH. Qed.

Lemma append_assoc (s1 s2 s3 : string) :
  (s1 +:+ s2) +:+ s3 = s1 +:+ (s2 +:+ s3).
Proof. induction s1 as [|c s1 IH]; [done|]. by rewrite !append_cons, IH. Qed.

Lemma join_app ss1 ss2 : join (ss1 ++ ss2) = join ss1 +:+ join ss2.
Proof.
  induction ss1 as [|s ss1 IH]; [done|].
  unfold join in *. simpl. by rewrite IH, append_assoc.
Qed.

Lemma alter_append_nil (p : string) (m : gmap string string) :
  alter (λ c, c +:+ join []) p m = m.
Proof.
  apply map_eq; intros q. rewrite lookup_alter. case_decide; [|done].
  subst. destruct (m !! q); [|done]. simpl. by rewrite append_empty_r.
Qed.

Lemma alter_append_cons (p s : string) ss (m : gmap string string) :
  alter (λ c, c +:+ join ss) p (alter (λ c, c +:+ s) p m)
  = alter (λ c, c +:+ join (s :: ss)) p m.
Proof.
  rewrite alter_alter_eq. apply alter_ext. intros c _. simpl.
  by rewrite append_assoc.
Qed.

(** What a run of writes to an open file object does, whatever the
    outcomes of the calls to come. *)
Lemma write_all_spec file p ss w :
  open_files w !! fileno file = Some p →
  write_all file ss w =
    match first_fault (length ss) (pending w) with
    | None => (Ok (), wrote (fileno file) p ss (length ss) [] w)
    | Some (i, e) =>
        (Raise (OSError e), wrote (fileno file) p (take i ss) (S i) [EvFail e] w)
    end.
Proof.
  revert w. induction ss as [|s ss IH]; intros w Hopen.
  - simpl. unfold wrote. rewrite alter_append_nil, drop_0, app_nil_r.
    by destruct w.
  - cbn [write_all]. rewrite run_bind. unfold write at 1. rewrite Hopen.
    unfold oscall. destruct w as [fs ofs nfd env av pend lg]; simpl in *.
    destruct pend as [|[e|] pend]; simpl.
    + rewrite IH by done. simpl. rewrite first_fault_nil. unfold wrote; simpl.
      rewrite alter_append_cons, drop_nil, <- app_assoc. done.
    + unfold wrote; simpl. by rewrite alter_append_nil, drop_0.
    + rewrite IH by done. simpl.
      destruct (first_fault (length ss) pend) as [[i e]|]; unfold wrote; simpl;
        by rewrite alter_append_cons, <- app_assoc.
Qed.

(** The loop of the script writes the strings of its sections. *)
Lemma for_section_writes file xs w :
  for_ xs (λ x,
    _ ← write file ("[Drum " +:+ str x +:+ "]" +:+ nl +:+ nl);
    _ ← write file ("dev-name = " +:+ quot +:+ "Dev note " +:+ str x +:+ quot +:+ nl);
    _ ← write file ("gm-name = " +:+ quot +:+ "GM note " +:+ str (x - 12) +:+ quot +:+ nl);
    _ ← write file ("dev-note = " +:+ str x +:+ nl);
    write file ("gm-note = " +:+ str (x - 12) +:+ nl +:+ nl)) w
  = write_all file (xs ≫= section_writes) w.
Proof.
  revert w. induction xs as [|x xs IH]; intros w; [done|].
  cbn [for_ mbind list_bind]. rewrite write_all_app, !run_bind.
  unfold section_writes at 1. cbn [write_all].
  do 5 step_write. apply IH.
Qed.

(** The script is: open, write the payload, close. *)
Lemma main_unfold w :
  main w = (file ← open path "w"; write_all file payload;; close file) w.
Proof.
  unfold main. rewrite !run_bind.
  destruct (open "test.notemap" "w" w) as [[file|e] w1] eqn:Hopen.
  2: { unfold path. by rewrite Hopen. }
  unfold path at 1. rewrite Hopen.
  assert (name file = path) as Hname.
  { unfold open in Hopen. simpl in Hopen.
    destruct (oscall w) as [[[]|?] ?]; [|done]. by injection Hopen as <- _. }
  unfold payload. cbn [write_all]. unfold header_text. rewrite Hname.
  step_write. rewrite write_all_app, !run_bind, for_section_writes.
  destruct (write_all file _ _) as [[[]|e] w3]; [|done].
  cbn [write_all]. unfold trailer_text. by step_write.
Qed.

End Writes.

Section Outcome.

Lemma open_write_close_spec ss w :
  (file ← open path "w"; write_all file ss;; close file) w = outcome_of ss w.
Proof.
  rewrite run_bind. unfold open, outcome_of.
  change (opened_content "w" (files w !! path)) with (Some "").
  cbv beta iota. unfold oscall.
  destruct w as [fs ofs nfd env av pend lg]. cbn [pending].
  destruct pend as [|[e|] pend]; cbv beta iota.
  - rewrite first_fault_nil, run_bind.
    erewrite write_all_spec by apply lookup_insert_eq.
    cbn [pending]. rewrite first_fault_nil.
    unfold close, wrote, closed, opened, oscall.
    cbn [open_files fileno pending files next_fd environ argv log drop].
    by rewrite lookup_insert_eq, !drop_nil.
  - done.
  - rewrite first_fault_calm, first_fault_S, run_bind.
    erewrite write_all_spec by apply lookup_insert_eq.
    cbn [pending]. destruct (first_fault (length ss) pend) as [[i e]|] eqn:E.
    + apply first_fault_lt in E. apply Nat.ltb_lt in E. by rewrite E.
    + unfold close, wrote, closed, opened, oscall.
      cbn [open_files fileno pending files next_fd environ argv log drop].
      rewrite lookup_insert_eq, ?drop_0.
      destruct (drop (length ss) pend) as [|[e|] r]; [done| |done].
      by rewrite Nat.ltb_irrefl, <- !app_assoc.
Qed.

(** The script, on every world. *)
Lemma main_spec w : main w = outcome_of payload w.
Proof. rewrite main_unfold. apply open_write_close_spec. Qed.

End Outcome.

Section OutcomeFacts.

Variable ss : list string.

Lemma outcome_log w :
  log (snd (outcome_of ss w)) = log w ++ run_events ss w.
Proof.
  unfold outcome_of, run_events.
  destruct (first_fault _ _) as [[[|i] e]|]; [done| |].
  - destruct (i <? length ss)%nat; cbn; by rewrite <- !app_assoc.
  - cbn. by rewrite <- !app_assoc.
Qed.

(** Files under another name are as before. *)
Lemma outcome_files_frame w p :
  p ≠ path → files (snd (outcome_of ss w)) !! p = files w !! p.
Proof.
  intros Hp. unfold outcome_of.
  destruct (first_fault _ _) as [[[|i] e]|]; [done| |].
  - destruct (i <? length ss)%nat; cbn;
      by rewrite lookup_alter_ne, lookup_insert_ne.
  - cbn. by rewrite lookup_alter_ne, lookup_insert_ne.
Qed.

(** Other file objects stay as they are. *)
Lemma outcome_open_files_frame w fd :
  fd ≠ next_fd w →
  open_files (snd (outcome_of ss w)) !! fd = open_files w !! fd.
Proof.
  intros Hfd. unfold outcome_of.
  destruct (first_fault _ _) as [[[|i] e]|]; [done| |].
  - destruct (i <? length ss)%nat; cbn;
      by rewrite ?lookup_delete_ne, lookup_insert_ne.
  - cbn. by rewrite lookup_delete_ne, lookup_insert_ne.
Qed.

Lemma outcome_environ w : environ (snd (outcome_of ss w)) = environ w.
Proof.
  unfold outcome_of.
  destruct (first_fault _ _) as [[[|i] e]|]; [done| |done].
  by destruct (i <? length ss)%nat.
Qed.

Lemma outcome_argv w : argv (snd (outcome_of ss w)) = argv w.
Proof.
  unfold outcome_of.
  destruct (first_fault _ _) as [[[|i] e]|]; [done| |done].
  by destruct (i <? length ss)%nat.
Qed.

(** Every event is on [path], through the descriptor the run was given. *)
Lemma run_events_on w : Forall (event_on path (next_fd w)) (run_events ss w).
Proof.
  assert (∀ l, Forall (event_on path (next_fd w)) (EvWrite (next_fd w) <$> l))
    as Hw by (intros l; by apply Forall_fmap, Forall_true).
  unfold run_events.
  destruct (first_fault _ _) as [[[|i] e]|].
  - by repeat constructor.
  - destruct (i <? length ss)%nat; constructor; try done;
      apply Forall_app; split; try apply Hw; by repeat constructor.
  - constructor; [done|]. apply Forall_app; split; [apply Hw|].
    by repeat constructor.
Qed.

(** The command line and the environment change nothing. *)
Lemma outcome_with_args av env w :
  fst (outcome_of ss (with_args av env w)) = fst (outcome_of ss w)
  ∧ files (snd (outcome_of ss (with_args av env w)))
    = files (snd (outcome_of ss w))
  ∧ run_events ss (with_args av env w) = run_events ss w.
Proof.
  unfold outcome_of, run_events, with_args. cbn [pending next_fd].
  destruct (first_fault _ _) as [[[|i] e]|]; [done| |done].
  by destruct (i <? length ss)%nat.
Qed.

(** Nor do the files that are there. *)
Lemma outcome_with_files fs w :
  fst (outcome_of ss (with_files fs w)) = fst (outcome_of ss w)
  ∧ run_events ss (with_files fs w) = run_events ss w.
Proof.
  unfold outcome_of, run_events, with_files. cbn [pending next_fd].
  destruct (first_fault _ _) as [[[|i] e]|]; [done| |done].
  by destruct (i <? length ss)%nat.
Qed.

(** A run without an exception: no call failed, the file holds the
    strings written, the file object is gone. *)
Lemma outcome_ok w :
  fst (outcome_of ss w) = Ok () →
  first_fault (S (S (length ss))) (pending w) = None
  ∧ files (snd (outcome_of ss w)) = <[path := join ss]> (files w)
  ∧ open_files (snd (outcome_of ss w)) !! next_fd w = None
  ∧ run_events ss w
    = EvOpen path (next_fd w) :: (EvWrite (next_fd w) <$> ss)
      ++ [EvClose (next_fd w)].
Proof.
  unfold outcome_of, run_events.
  destruct (first_fault _ _) as [[[|i] e]|]; [done|done|]. intros _. cbn.
  by rewrite alter_insert_eq, lookup_delete_eq.
Qed.

(** A run whose call number [k] (from 0) is the first to fail. *)
Lemma outcome_fault w k e rest :
  (k < S (S (length ss)))%nat →
  pending w = replicate k None ++ Some e :: rest →
  first_fault (S (S (length ss))) (pending w) = Some (k, e)
  ∧ fst (outcome_of ss w) = Raise (OSError e)
  ∧ pending (snd (outcome_of ss w)) = rest.
Proof.
  intros Hk Hp.
  assert (first_fault (S (S (length ss))) (pending w) = Some (k, e)) as Hf
    by (rewrite Hp; by apply first_fault_replicate).
  split; [done|]. unfold outcome_of. rewrite Hf.
  pose proof (drop_replicate_fault k e rest) as Hd. rewrite <- Hp in Hd.
  destruct k as [|i]; [done|].
  split; [done|]. destruct (i <? length ss)%nat eqn:Hi; cbn.
  - rewrite drop_drop. exact Hd.
  - apply Nat.ltb_ge in Hi. assert (i = length ss) as -> by lia.
    rewrite !drop_drop, <- Hd. f_equal. lia.
Qed.

End OutcomeFacts.

Section Text.

Lemma payload_length : length payload = 582%nat.
Proof. vm_compute. reflexivity. Qed.

Lemma calls_eq : calls = 584%nat.
Proof. vm_compute. reflexivity. Qed.

(** [k] line feeds make [k + 1] lines. *)
Lemma lines_length s : length (lines s) = S (count_char LF s).
Proof.
  induction s as [|c s IH]; [done|]. cbn [lines count_char].
  destruct (Ascii.eqb c LF); cbn [length]; [by rewrite IH|].
  destruct (lines s) as [|l ls]; [done|]. cbn [length] in *. lia.
Qed.

Lemma seqZ_ascending m n : StronglySorted Z.lt (seqZ m n).
Proof.
  destruct (decide (0 < n)) as [Hn|Hn]; [|rewrite seqZ_nil by lia; constructor].
  rewrite <- (Z2Nat.id n) by lia. generalize (Z.to_nat n) as k. clear.
  intros k. revert m. induction k as [|k IH]; intros m; [constructor|].
  rewrite seqZ_cons by lia. replace (Z.pred (Z.of_nat (S k))) with (Z.of_nat k) by lia.
  constructor; [apply IH|]. apply Forall_seqZ. lia.
Qed.

(** The text is the header, the sections of 12..127 and the trailer. *)
Lemma notemap_text_parts :
  notemap_text
  = header_text +:+ join (section_text <$> range 12 128) +:+ trailer_text.
Proof. vm_compute. reflexivity. Qed.

Lemma notemap_sections : sections notemap_text = section_lines <$> range 12 128.
Proof. vm_compute. reflexivity. Qed.

Lemma notemap_headers : section_headers notemap_text = header_line <$> range 12 128.
Proof. vm_compute. reflexivity. Qed.

Lemma notemap_numbers : drum_numbers notemap_text = seqZ 12 116.
Proof. vm_compute. reflexivity. Qed.

Lemma notemap_lines :
  lines notemap_text
  = ["Test notemap file: test.notemap"; ""]
    ++ (range 12 128 ≫= section_lines)
    ++ ["# vim: sw=4 ts=4 wm=4 et ft=dosini"].
Proof. vm_compute. reflexivity. Qed.

(** The block of each N and its four values. *)
Lemma notemap_section_of N :
  12 ≤ N ≤ 127 →
  drum_sections N notemap_text = [section_lines N]
  ∧ field "dev-name" (section_lines N) = Some (quot +:+ "Dev note " +:+ str N +:+ quot)
  ∧ field "gm-name" (section_lines N) = Some (quot +:+ "GM note " +:+ str (N - 12) +:+ quot)
  ∧ int_field "dev-note" (section_lines N) = Some N
  ∧ int_field "gm-note" (section_lines N) = Some (N - 12).
Proof.
  intros HN. assert (N ∈ seqZ 12 116) as Hin by (apply elem_of_seqZ; lia).
  clear HN. revert N Hin. apply Forall_forall.
  apply (bool_decide_unpack _). vm_compute. reflexivity.
Qed.

Lemma notemap_plain : plain_text notemap_text = true.
Proof. vm_compute. reflexivity. Qed.

Lemma payload_plain : Forall (λ s, plain_text s = true) payload.
Proof. apply (bool_decide_unpack _). vm_compute. reflexivity. Qed.

Lemma section_line_feeds : Forall (λ x, count_char LF (section_text x) = 7%nat) (range 12 128).
Proof. apply (bool_decide_unpack _). vm_compute. reflexivity. Qed.

End Text.

Section Run.

Lemma events_of_run_eq w : events_of_run w = run_events payload w.
Proof.
  unfold events_of_run. by rewrite main_spec, outcome_log, drop_app_length.
Qed.

(** A run without an exception. *)
Lemma main_ok w :
  fst (main w) = Ok () →
  files (snd (main w)) = <[path := notemap_text]> (files w)
  ∧ open_files (snd (main w)) !! next_fd w = None
  ∧ events_of_run w
    = EvOpen path (next_fd w) :: (EvWrite (next_fd w) <$> payload)
      ++ [EvClose (next_fd w)].
Proof.
  rewrite events_of_run_eq, main_spec. intros H.
  by destruct (outcome_ok payload w H) as (_ & ? & ? & ?).
Qed.

Lemma main_ok_text w :
  fst (main w) = Ok () → files (snd (main w)) !! path = Some notemap_text.
Proof. intros H. destruct (main_ok w H) as [-> _]. apply lookup_insert_eq. Qed.

(** When none of the calls fails the script runs to its end. *)
Lemma main_total w :
  first_fault calls (pending w) = None → fst (main w) = Ok ().
Proof. intros H. rewrite main_spec. unfold outcome_of. fold calls. by rewrite H. Qed.

Lemma plain_text_plain s : plain_text s = true → plain s.
Proof.
  unfold plain_text, plain. rewrite forallb_forall. intros H c Hc.
  apply list_elem_of_In, H in Hc. unfold plain_char in Hc.
  apply orb_true_iff in Hc as [Hc|Hc].
  - left. by apply Ascii.eqb_eq.
  - right. apply andb_true_iff in Hc as [H1 H2].
    apply Nat.leb_le in H1, H2. lia.
Qed.

Lemma plain_clean s : plain s → clean s.
Proof.
  intros H. split; [done|]. intros Hc.
  destruct (H _ Hc) as [E|[E _]]; [discriminate E|].
  change (nat_of_ascii CR) with 13%nat in E. lia.
Qed.

Lemma payload_clean : Forall clean payload.
Proof.
  eapply Forall_impl; [apply payload_plain|].
  intros s Hs. by apply plain_clean, plain_text_plain.
Qed.

Lemma writes_clean fd ss : Forall clean ss → Forall clean_event (EvWrite fd <$> ss).
Proof. intros H. by apply Forall_fmap. Qed.

Lemma run_events_clean ss w : Forall clean ss → Forall clean_event (run_events ss w).
Proof.
  intros H. unfold run_events.
  destruct (first_fault _ _) as [[[|i] e]|].
  - by repeat constructor.
  - destruct (i <? length ss)%nat; constructor; try done;
      apply Forall_app; split;
      try (apply writes_clean; try apply Forall_take; done);
      by repeat constructor.
  - constructor; [done|]. apply Forall_app; split; [by apply writes_clean|].
    by repeat constructor.
Qed.

Lemma filter_writes f fd ss :
  (∀ s, f (EvWrite fd s) = false) → List.filter f (EvWrite fd <$> ss) = [].
Proof.
  intros Hf. induction ss as [|s ss IH]; [done|]. cbn. by rewrite Hf.
Qed.

Lemma count_events_cons f ev evs :
  count_events f (ev :: evs) = ((if f ev then 1 else 0) + count_events f evs)%nat.
Proof. unfold count_events. cbn. by destruct (f ev). Qed.

Lemma count_events_writes f fd ss tail :
  (∀ s, f (EvWrite fd s) = false) →
  count_events f ((EvWrite fd <$> ss) ++ tail) = count_events f tail.
Proof.
  intros Hf. unfold count_events. by rewrite List.filter_app, filter_writes.
Qed.

Lemma written_writes fd ss tail :
  written (EvOpen path fd :: (EvWrite fd <$> ss) ++ tail) = join ss +:+ written tail.
Proof.
  unfold written. cbn [omap list_omap]. rewrite omap_app, join_app. f_equal.
  f_equal. induction ss as [|s ss IH]; [done|]. cbn. by rewrite IH.
Qed.

End Run.

(** * The claims *)

(** C1: a run in which the output file can be created, that is, a run
    that ends without a filesystem error (a full disk makes the file as
    impossible to create as a missing permission or an invalid path), leaves
    exactly 116 section blocks in test.notemap; their header lines are
    [Drum N], and the numbers N, in the order of the file, are exactly the
    integers 12..127, strictly ascending, each once. *)
Theorem drum_headers_12_to_127 (w : World) :
  fst (main w) = Ok () →
  ∃ text,
    files (snd (main w)) !! "test.notemap" = Some text
    ∧ length (sections text) = 116%nat
    ∧ head <$> sections text = Some <$> section_headers text
    ∧ section_headers text = (λ N, "[Drum " +:+ str N +:+ "]") <$> drum_numbers text
    ∧ length (drum_numbers text) = 116%nat
    ∧ (∀ N, N ∈ drum_numbers text ↔ 12 ≤ N ≤ 127)
    ∧ StronglySorted Z.lt (drum_numbers text)
    ∧ NoDup (drum_numbers text).
Proof.
  intros Hok. exists notemap_text. split; [by apply main_ok_text|].
  rewrite notemap_numbers.
  split; [by rewrite notemap_sections; vm_compute|].
  split; [by rewrite notemap_sections, notemap_headers; vm_compute|].
  split; [apply notemap_headers|].
  split; [by rewrite length_seqZ|].
  split; [intros N; rewrite elem_of_seqZ; lia|].
  split; [apply seqZ_ascending|apply NoDup_seqZ].
Qed.

Lemma drum_headers_12_to_127_witness :
  ∃ text,
    files (snd (main w_quiet)) !! "test.notemap" = Some text
    ∧ length (sections text) = 116%nat
    ∧ head <$> sections text = Some <$> section_headers text
    ∧ section_headers text = (λ N, "[Drum " +:+ str N +:+ "]") <$> drum_numbers text
    ∧ length (drum_numbers text) = 116%nat
    ∧ (∀ N, N ∈ drum_numbers text ↔ 12 ≤ N ≤ 127)
    ∧ StronglySorted Z.lt (drum_numbers text)
    ∧ NoDup (drum_numbers text).
Proof. apply (drum_headers_12_to_127 w_quiet). vm_compute. reflexivity. Defined.

(** C2: for every N from 12 to 127 the file of such a run has one block
    headed [Drum N]; it is the header line, an empty line, the four lines
    dev-name, gm-name, dev-note and gm-note with the values "Dev note N",
    "GM note N-12", N and N-12, and an empty line; in every block gm-note is
    dev-note minus 12. *)
Theorem drum_section_contents (w : World) (N : Z) :
  fst (main w) = Ok () →
  12 ≤ N ≤ 127 →
  ∃ text,
    files (snd (main w)) !! "test.notemap" = Some text
    ∧ drum_sections N text =
        [[ "[Drum " +:+ str N +:+ "]";
           "";
           "dev-name = " +:+ quot +:+ "Dev note " +:+ str N +:+ quot;
           "gm-name = " +:+ quot +:+ "GM note " +:+ str (N - 12) +:+ quot;
           "dev-note = " +:+ str N;
           "gm-note = " +:+ str (N - 12);
           "" ]]
    ∧ Forall (λ block,
        ∃ d, int_field "dev-note" block = Some d
             ∧ int_field "gm-note" block = Some (d - 12)
             ∧ field "dev-name" block = Some (quot +:+ "Dev note " +:+ str d +:+ quot)
             ∧ field "gm-name" block = Some (quot +:+ "GM note " +:+ str (d - 12) +:+ quot))
        (sections text).
Proof.
  intros Hok HN. exists notemap_text. split; [by apply main_ok_text|].
  split; [by apply notemap_section_of|].
  rewrite notemap_sections. apply Forall_fmap, Forall_seqZ.
  intros d Hd. exists d. cbn [compose].
  destruct (notemap_section_of d) as (_ & ? & ? & ? & ?); [lia|done].
Qed.

Lemma drum_section_contents_witness :
  ∃ text,
    files (snd (main w_quiet)) !! "test.notemap" = Some text
    ∧ drum_sections 12 text =
        [[ "[Drum 12]"; ""; "dev-name = " +:+ quot +:+ "Dev note 12" +:+ quot;
           "gm-name = " +:+ quot +:+ "GM note 0" +:+ quot;
           "dev-note = 12"; "gm-note = 0"; "" ]]
    ∧ Forall (λ block,
        ∃ d, int_field "dev-note" block = Some d
             ∧ int_field "gm-note" block = Some (d - 12)
             ∧ field "dev-name" block = Some (quot +:+ "Dev note " +:+ str d +:+ quot)
             ∧ field "gm-name" block = Some (quot +:+ "GM note " +:+ str (d - 12) +:+ quot))
        (sections text).
Proof.
  apply (drum_section_contents w_quiet 12); [vm_compute; reflexivity|lia].
Defined.

(** C3: the file of such a run begins with the line
    Test notemap file: test.notemap and an empty line, and ends with the
    modeline, after which no line feed comes. *)
Theorem file_begins_and_ends (w : World) :
  fst (main w) = Ok () →
  ∃ text body,
    files (snd (main w)) !! "test.notemap" = Some text
    ∧ text = "Test notemap file: test.notemap" +:+ nl +:+ nl +:+ body
             +:+ "# vim: sw=4 ts=4 wm=4 et ft=dosini"
    ∧ take 2 (lines text) = ["Test notemap file: test.notemap"; ""]
    ∧ last (lines text) = Some "# vim: sw=4 ts=4 wm=4 et ft=dosini"
    ∧ ends_with "# vim: sw=4 ts=4 wm=4 et ft=dosini" text = true
    ∧ ends_with nl text = false.
Proof.
  intros Hok. exists notemap_text, (join (section_text <$> range 12 128)).
  split; [by apply main_ok_text|].
  split; [apply notemap_text_parts|].
  by vm_compute.
Qed.

Lemma file_begins_and_ends_witness :
  ∃ text body,
    files (snd (main w_quiet)) !! "test.notemap" = Some text
    ∧ text = "Test notemap file: test.notemap" +:+ nl +:+ nl +:+ body
             +:+ "# vim: sw=4 ts=4 wm=4 et ft=dosini"
    ∧ take 2 (lines text) = ["Test notemap file: test.notemap"; ""]
    ∧ last (lines text) = Some "# vim: sw=4 ts=4 wm=4 et ft=dosini"
    ∧ ends_with "# vim: sw=4 ts=4 wm=4 et ft=dosini" text = true
    ∧ ends_with nl text = false.
Proof. apply (file_begins_and_ends w_quiet). vm_compute. reflexivity. Defined.

(** C4: a second run right after a first leaves the directory as the first
    left it, test.notemap byte for byte; what a run writes, and what the
    file holds after it, is the same from whatever world the run starts. *)
Theorem rerun_identical (w : World) :
  fst (main w) = Ok () →
  fst (main (snd (main w))) = Ok () →
  files (snd (main (snd (main w)))) = files (snd (main w))
  ∧ written (events_of_run (snd (main w))) = written (events_of_run w)
  ∧ ∀ w0, fst (main w0) = Ok () →
      files (snd (main w0)) !! "test.notemap"
      = files (snd (main w)) !! "test.notemap"
      ∧ written (events_of_run w0) = written (events_of_run w).
Proof.
  intros H1 H2.
  assert (∀ v, fst (main v) = Ok () → written (events_of_run v) = notemap_text)
    as Hwr.
  { intros v Hv. destruct (main_ok v Hv) as (_ & _ & ->).
    rewrite written_writes. apply append_empty_r. }
  split; [|split].
  - destruct (main_ok _ H2) as [-> _]. destruct (main_ok _ H1) as [-> _].
    apply insert_insert_eq.
  - by rewrite !Hwr.
  - intros w0 H0. split; [|by rewrite !Hwr].
    change "test.notemap" with path. by rewrite !main_ok_text.
Qed.

Lemma rerun_identical_witness :
  files (snd (main (snd (main w_quiet)))) = files (snd (main w_quiet))
  ∧ written (events_of_run (snd (main w_quiet))) = written (events_of_run w_quiet)
  ∧ ∀ w0, fst (main w0) = Ok () →
      files (snd (main w0)) !! "test.notemap"
      = files (snd (main w_quiet)) !! "test.notemap"
      ∧ written (events_of_run w0) = written (events_of_run w_quiet).
Proof.
  apply (rerun_identical w_quiet); vm_compute; reflexivity.
Defined.

(** C5: when one of the 584 calls of a run (the open, a write, the close)
    fails, the script ends with that very error: nothing catches it, the
    interpreter exits with status 1, and the failed call is the last call
    the program makes and the only failure it sees. *)
Theorem io_error_propagates (w : World) (k errno : nat) (rest : list (option nat)) :
  (k < 584)%nat →
  pending w = replicate k None ++ Some errno :: rest →
  fst (main w) = Raise (OSError errno)
  ∧ exit_status (fst (main w)) = 1
  ∧ pending (snd (main w)) = rest
  ∧ last (events_of_run w) = Some (EvFail errno)
  ∧ count_events is_fail (events_of_run w) = 1%nat.
Proof.
  intros Hk Hp. rewrite events_of_run_eq, main_spec.
  rewrite <- calls_eq in Hk. unfold calls in Hk.
  destruct (outcome_fault payload w k errno rest Hk Hp) as (Hf & Hr & Hrest).
  rewrite Hr. do 3 (split; [done|]).
  unfold run_events. rewrite Hf. destruct k as [|i]; [done|].
  destruct (i <? length payload)%nat.
  - split.
    + by rewrite app_comm_cons, last_snoc.
    + by rewrite count_events_cons, count_events_writes.
  - split.
    + change [EvClose (next_fd w); EvFail errno]
        with ([EvClose (next_fd w)] ++ [EvFail errno]).
      by rewrite app_comm_cons, app_assoc, last_snoc.
    + by rewrite count_events_cons, count_events_writes.
Qed.

Lemma io_error_propagates_witness :
  fst (main w_disk_full) = Raise (OSError 28)
  ∧ exit_status (fst (main w_disk_full)) = 1
  ∧ pending (snd (main w_disk_full)) = [None]
  ∧ last (events_of_run w_disk_full) = Some (EvFail 28)
  ∧ count_events is_fail (events_of_run w_disk_full) = 1%nat.
Proof.
  apply (io_error_propagates w_disk_full 4 28 [None]); [lia|reflexivity].
Defined.

(** C6: a run touches test.notemap and nothing else: every other file of
    the directory, the environment, the command line and every other open
    file object are after the run what they were before it, every event of
    the run is on test.notemap through the one descriptor the run obtained,
    and neither the result nor the events depend on the files the run
    finds. *)
Theorem only_test_notemap_touched (w : World) :
  (∀ p, p ≠ "test.notemap" → files (snd (main w)) !! p = files w !! p)
  ∧ environ (snd (main w)) = environ w
  ∧ argv (snd (main w)) = argv w
  ∧ (∀ fd, fd ≠ next_fd w →
       open_files (snd (main w)) !! fd = open_files w !! fd)
  ∧ Forall (event_on "test.notemap" (next_fd w)) (events_of_run w)
  ∧ ∀ fs, fst (main (with_files fs w)) = fst (main w)
          ∧ events_of_run (with_files fs w) = events_of_run w.
Proof.
  split; [|split; [|split; [|split; [|split]]]].
  - intros p Hp. rewrite main_spec. by apply outcome_files_frame.
  - rewrite main_spec. apply outcome_environ.
  - rewrite main_spec. apply outcome_argv.
  - intros fd Hfd. rewrite main_spec. by apply outcome_open_files_frame.
  - rewrite events_of_run_eq. apply run_events_on.
  - intros fs. rewrite !events_of_run_eq, !main_spec.
    apply outcome_with_files.
Qed.

Lemma only_test_notemap_touched_witness :
  files (snd (main w_quiet)) !! "seq66.rc" = files w_quiet !! "seq66.rc".
Proof.
  apply (proj1 (only_test_notemap_touched w_quiet) "seq66.rc"). discriminate.
Defined.

(** C7: on a run without an exception the file object is obtained once,
    by the first event, and released once, by the last, and is closed
    afterwards; when a write fails (calls 1 to 582 of the run, call 0 being
    the open) the one open is followed by no close, and the file object is
    still open when the script ends. *)
Theorem handle_opened_once_closed_once (w : World) :
  (fst (main w) = Ok () →
     events_of_run w
     = EvOpen "test.notemap" (next_fd w) :: (EvWrite (next_fd w) <$> payload)
       ++ [EvClose (next_fd w)]
     ∧ count_events is_open (events_of_run w) = 1%nat
     ∧ count_events is_close (events_of_run w) = 1%nat
     ∧ open_files (snd (main w)) !! next_fd w = None)
  ∧ (∀ k errno rest,
       (1 ≤ k ≤ 582)%nat →
       pending w = replicate k None ++ Some errno :: rest →
       fst (main w) = Raise (OSError errno)
       ∧ head (events_of_run w) = Some (EvOpen "test.notemap" (next_fd w))
       ∧ count_events is_open (events_of_run w) = 1%nat
       ∧ count_events is_close (events_of_run w) = 0%nat
       ∧ open_files (snd (main w)) !! next_fd w = Some "test.notemap").
Proof.
  split.
  - intros Hok. destruct (main_ok w Hok) as (_ & Hcl & Hev).
    rewrite Hev. split; [done|]. split; [|split; [|done]].
    + by rewrite count_events_cons, count_events_writes.
    + by rewrite count_events_cons, count_events_writes.
  - intros k errno rest Hk Hp. rewrite events_of_run_eq, main_spec.
    rewrite <- payload_length in Hk.
    destruct (outcome_fault payload w k errno rest) as (Hf & Hr & _);
      [lia|done|].
    split; [done|]. unfold run_events, outcome_of. rewrite Hf.
    destruct k as [|i]; [lia|].
    assert ((i <? length payload)%nat = true) as -> by (apply Nat.ltb_lt; lia).
    split; [done|]. split; [|split].
    + by rewrite count_events_cons, count_events_writes.
    + by rewrite count_events_cons, count_events_writes.
    + cbn. apply lookup_insert_eq.
Qed.

Lemma handle_opened_once_closed_once_witness :
  (events_of_run w_quiet
   = EvOpen "test.notemap" (next_fd w_quiet)
     :: (EvWrite (next_fd w_quiet) <$> payload) ++ [EvClose (next_fd w_quiet)]
   ∧ count_events is_open (events_of_run w_quiet) = 1%nat
   ∧ count_events is_close (events_of_run w_quiet) = 1%nat
   ∧ open_files (snd (main w_quiet)) !! next_fd w_quiet = None)
  ∧ (fst (main w_disk_full) = Raise (OSError 28)
     ∧ head (events_of_run w_disk_full)
       = Some (EvOpen "test.notemap" (next_fd w_disk_full))
     ∧ count_events is_open (events_of_run w_disk_full) = 1%nat
     ∧ count_events is_close (events_of_run w_disk_full) = 0%nat
     ∧ open_files (snd (main w_disk_full)) !! next_fd w_disk_full
       = Some "test.notemap").
Proof.
  split.
  - apply (proj1 (handle_opened_once_closed_once w_quiet)).
    vm_compute. reflexivity.
  - apply (proj2 (handle_opened_once_closed_once w_disk_full) 4%nat 28%nat [None]).
    + lia.
    + reflexivity.
Defined.

(** C8: the command line and the environment of a run have no part in
    what it does: with any other arguments and any other environment the
    result, the files it leaves and the events of the run, the bytes
    written among them, are the same; and any two runs that end without an
    exception, from whatever worlds, wrote the same bytes and left the same
    test.notemap. *)
Theorem output_ignores_argv_environ (w : World) (av : list string)
  (env : gmap string string) :
  fst (main (with_args av env w)) = fst (main w)
  ∧ files (snd (main (with_args av env w))) = files (snd (main w))
  ∧ events_of_run (with_args av env w) = events_of_run w
  ∧ written (events_of_run (with_args av env w)) = written (events_of_run w)
  ∧ ∀ w', fst (main w) = Ok () → fst (main w') = Ok () →
      written (events_of_run w') = written (events_of_run w)
      ∧ files (snd (main w')) !! "test.notemap"
        = files (snd (main w)) !! "test.notemap".
Proof.
  split; [|split; [|split; [|split]]].
  - rewrite !main_spec. apply outcome_with_args.
  - rewrite !main_spec. apply outcome_with_args.
  - rewrite !events_of_run_eq. apply outcome_with_args.
  - rewrite !events_of_run_eq.
    by destruct (outcome_with_args payload av env w) as (_ & _ & ->).
  - intros w' H H'. split.
    + destruct (main_ok w H) as (_ & _ & ->).
      destruct (main_ok w' H') as (_ & _ & ->).
      by rewrite !written_writes.
    + change "test.notemap" with path. by rewrite !main_ok_text.
Qed.

Lemma output_ignores_argv_environ_witness :
  written (events_of_run w_other) = written (events_of_run w_quiet)
  ∧ files (snd (main w_other)) !! "test.notemap"
    = files (snd (main w_quiet)) !! "test.notemap".
Proof.
  apply (proj2 (proj2 (proj2 (proj2
           (output_ignores_argv_environ w_quiet [] ∅)))) w_other);
    vm_compute; reflexivity.
Defined.

(** C9: every string a run hands to [write], whether or not the run gets
    to its end, consists of line feeds and printable ASCII and has no
    carriage return; so does the file of a run without an exception. *)
Theorem only_line_feeds_and_plain_ascii (w : World) :
  Forall (λ ev, match ev with
                | EvWrite _ s =>
                    (∀ c, c ∈ chars s → c = LF ∨ (32 ≤ nat_of_ascii c ≤ 126)%nat)
                    ∧ (CR ∉ chars s)
                | _ => True
                end) (events_of_run w)
  ∧ (fst (main w) = Ok () →
     ∃ text,
       files (snd (main w)) !! "test.notemap" = Some text
       ∧ (∀ c, c ∈ chars text → c = LF ∨ (32 ≤ nat_of_ascii c ≤ 126)%nat)
       ∧ (CR ∉ chars text)
       ∧ count_char CR text = 0%nat).
Proof.
  split.
  - rewrite events_of_run_eq. apply (run_events_clean payload w payload_clean).
  - intros Hok. exists notemap_text. split; [by apply main_ok_text|].
    destruct (plain_clean notemap_text) as [? ?];
      [apply plain_text_plain, notemap_plain|].
    do 2 (split; [done|]). by vm_compute.
Qed.

Lemma only_line_feeds_and_plain_ascii_witness :
  ∃ text,
    files (snd (main w_quiet)) !! "test.notemap" = Some text
    ∧ (∀ c, c ∈ chars text → c = LF ∨ (32 ≤ nat_of_ascii c ≤ 126)%nat)
    ∧ (CR ∉ chars text)
    ∧ count_char CR text = 0%nat.
Proof.
  apply (proj2 (only_line_feeds_and_plain_ascii w_quiet)).
  vm_compute. reflexivity.
Defined.

(** C10: the file of a run without an exception has 814 line feeds: 2 of
    the header, 7 of each of the 116 sections, none of the trailer; it has
    815 lines, and the last of them, the modeline, is not terminated. *)
Theorem line_feed_count (w : World) :
  fst (main w) = Ok () →
  ∃ text,
    files (snd (main w)) !! "test.notemap" = Some text
    ∧ count_char LF text = 814%nat
    ∧ length (lines text) = 815%nat
    ∧ last (lines text) = Some "# vim: sw=4 ts=4 wm=4 et ft=dosini"
    ∧ ends_with nl text = false
    ∧ text = header_text +:+ join (section_text <$> range 12 128) +:+ trailer_text
    ∧ count_char LF header_text = 2%nat
    ∧ length (range 12 128) = 116%nat
    ∧ (∀ x, 12 ≤ x ≤ 127 → count_char LF (section_text x) = 7%nat)
    ∧ count_char LF trailer_text = 0%nat.
Proof.
  intros Hok. exists notemap_text. split; [by apply main_ok_text|].
  assert (count_char LF notemap_text = 814%nat) as Hn by (by vm_compute).
  split; [done|]. split; [by rewrite lines_length, Hn|].
  split; [by vm_compute|]. split; [by vm_compute|].
  split; [apply notemap_text_parts|].
  split; [by vm_compute|]. split; [by vm_compute|]. split; [|by vm_compute].
  intros x Hx. pose proof section_line_feeds as Hall.
  unfold range in Hall. rewrite Forall_seqZ in Hall. apply Hall. lia.
Qed.

Lemma line_feed_count_witness :
  ∃ text,
    files (snd (main w_quiet)) !! "test.notemap" = Some text
    ∧ count_char LF text = 814%nat
    ∧ length (lines text) = 815%nat
    ∧ last (lines text) = Some "# vim: sw=4 ts=4 wm=4 et ft=dosini"
    ∧ ends_with nl text = false
    ∧ text = header_text +:+ join (section_text <$> range 12 128) +:+ trailer_text
    ∧ count_char LF header_text = 2%nat
    ∧ length (range 12 128) = 116%nat
    ∧ (∀ x, 12 ≤ x ≤ 127 → count_char LF (section_text x) = 7%nat)
    ∧ count_char LF trailer_text = 0%nat.
Proof. apply (line_feed_count w_quiet). vm_compute. reflexivity. Defined.

(** * Further properties of the script *)

Section Further.

Lemma first_fault_none_iff k (l : list (option nat)) :
  first_fault k l = None ↔ Forall (λ o, o = None) (take k l).
Proof.
  revert l. induction k as [|k IH]; intros [|[e|] l]; cbn [take];
    try (split; [constructor|done]).
  - split; [done|]. by inversion 1.
  - rewrite first_fault_calm. specialize (IH l).
    destruct (first_fault k l) as [[i e]|].
    + split; [done|]. inversion 1 as [|? ? _ Hl]. by apply IH in Hl.
    + split; [|done]. intros _. constructor; [done|]. by apply IH.
Qed.

Lemma count_writes fd ss :
  count_events is_write (EvWrite fd <$> ss) = length ss.
Proof.
  unfold count_events. induction ss as [|s ss IH]; [done|].
  cbn. by rewrite IH.
Qed.

Lemma count_events_app f evs1 evs2 :
  count_events f (evs1 ++ evs2) = (count_events f evs1 + count_events f evs2)%nat.
Proof. unfold count_events. by rewrite List.filter_app, length_app. Qed.

Lemma outcome_calls ss w :
  fst (outcome_of ss w) = Ok () →
  pending (snd (outcome_of ss w)) = drop (S (S (length ss))) (pending w).
Proof.
  unfold outcome_of.
  destruct (first_fault _ _) as [[[|i] e]|]; [done|done|]. intros _. cbn.
  rewrite !drop_drop. f_equal. lia.
Qed.

Lemma outcome_kinds ss w :
  match first_fault (S (S (length ss))) (pending w) with
  | None => fst (outcome_of ss w) = Ok ()
  | Some (k, e) => fst (outcome_of ss w) = Raise (OSError e)
  end.
Proof.
  unfold outcome_of.
  by destruct (first_fault _ _) as [[[|i] e]|].
Qed.

End Further.

(** X2: when the open fails, the script ends with that error and the
    directory is as it was: no file is made, and an older test.notemap
    keeps its content; nothing was opened, written or closed. *)
Theorem failed_open_changes_nothing (w : World) (errno : nat)
  (rest : list (option nat)) :
  pending w = Some errno :: rest →
  fst (main w) = Raise (OSError errno)
  ∧ files (snd (main w)) = files w
  ∧ open_files (snd (main w)) = open_files w
  ∧ events_of_run w = [EvFail errno]
  ∧ pending (snd (main w)) = rest.
Proof.
  intros Hp. rewrite events_of_run_eq, main_spec.
  unfold outcome_of, run_events. rewrite Hp. cbn [first_fault].
  unfold failed_open. cbn. by rewrite Hp.
Qed.

Lemma failed_open_changes_nothing_witness :
  fst (main w_locked) = Raise (OSError 13)
  ∧ files (snd (main w_locked)) = files w_locked
  ∧ open_files (snd (main w_locked)) = open_files w_locked
  ∧ events_of_run w_locked = [EvFail 13%nat]
  ∧ pending (snd (main w_locked)) = [None].
Proof. apply (failed_open_changes_nothing w_locked 13 [None]). reflexivity. Defined.

(** X3: the script ends without an exception exactly when none of its 584
    calls fails; such a run makes exactly these 584 calls, 582 of them
    writes (1 + 5 * 116 + 1). *)
Theorem succeeds_iff_no_call_fails (w : World) :
  (fst (main w) = Ok () ↔ Forall (λ o, o = None) (take 584 (pending w)))
  ∧ (fst (main w) = Ok () →
     pending (snd (main w)) = drop 584 (pending w)
     ∧ count_events is_write (events_of_run w) = 582%nat
     ∧ 582 = 1 + 5 * 116 + 1).
Proof.
  rewrite <- first_fault_none_iff, <- calls_eq. unfold calls. split.
  - rewrite main_spec. pose proof (outcome_kinds payload w) as Hk. split.
    + intros Hok. destruct (first_fault _ _) as [[k e]|]; [|done].
      rewrite Hok in Hk. discriminate.
    + intros Hn. by rewrite Hn in Hk.
  - intros Hok. destruct (main_ok w Hok) as (_ & _ & ->).
    rewrite main_spec in Hok |- *. split; [by apply outcome_calls|].
    split; [|done].
    rewrite count_events_cons, count_events_app, count_writes.
    rewrite payload_length. done.
Qed.

Lemma succeeds_iff_no_call_fails_witness :
  fst (main w_other) = Ok ()
  ∧ pending (snd (main w_other)) = drop 584 (pending w_other)
  ∧ count_events is_write (events_of_run w_other) = 582%nat.
Proof.
  assert (fst (main w_other) = Ok ()) as Hok.
  { apply (proj1 (succeeds_iff_no_call_fails w_other)).
    repeat constructor. }
  split; [exact Hok|].
  destruct (proj2 (succeeds_iff_no_call_fails w_other) Hok) as (H1 & H2 & _).
  exact (conj H1 H2).
Defined.

(** X4: the only exception the script ends with is an OSError the
    operating system reported at one of its 584 calls, with the errno
    reported; it never ends with a ValueError, that is, it never writes to
    or through a file object that is closed. *)
Theorem only_os_errors (w : World) :
  (fst (main w) = Ok ()
   ∨ ∃ k errno, (k < 584)%nat
                ∧ pending w !! k = Some (Some errno)
                ∧ fst (main w) = Raise (OSError errno))
  ∧ fst (main w) ≠ Raise ValueError.
Proof.
  rewrite main_spec. pose proof (outcome_kinds payload w) as Hk.
  destruct (first_fault _ _) as [[k e]|] eqn:Hf.
  - split; [|by rewrite Hk]. right. exists k, e.
    split; [rewrite <- calls_eq; by apply first_fault_lt in Hf|].
    split; [by apply first_fault_lookup in Hf|done].
  - split; [by left|by rewrite Hk].
Qed.

(** X5: read back as a note map, the file of a run without an exception
    sends each device note 12..127, in ascending order, to the GM note 12
    below it: one pair per note, no device note and no GM note twice, and
    the GM notes are exactly 0..115. *)
Theorem note_map_shifts_by_12 (w : World) :
  fst (main w) = Ok () →
  ∃ text,
    files (snd (main w)) !! "test.notemap" = Some text
    ∧ note_map text = (λ N, (N, N - 12)) <$> seqZ 12 116
    ∧ (∀ d g, (d, g) ∈ note_map text ↔ 12 ≤ d ≤ 127 ∧ g = d - 12)
    ∧ NoDup (fst <$> note_map text)
    ∧ NoDup (snd <$> note_map text)
    ∧ (∀ g, g ∈ snd <$> note_map text ↔ 0 ≤ g ≤ 115).
Proof.
  intros Hok. exists notemap_text. split; [by apply main_ok_text|].
  assert (note_map notemap_text = (λ N, (N, N - 12)) <$> seqZ 12 116) as ->
    by (vm_compute; reflexivity).
  split; [done|]. split; [|split; [|split]].
  - intros d g. rewrite list_elem_of_fmap. split.
    + intros (N & [= -> ->] & HN). apply elem_of_seqZ in HN. lia.
    + intros (Hd & ->). exists d. split; [done|]. apply elem_of_seqZ. lia.
  - rewrite <- list_fmap_compose.
    assert ((fst ∘ (λ N : Z, (N, N - 12))) <$> seqZ 12 116 = seqZ 12 116) as ->
      by (vm_compute; reflexivity).
    apply NoDup_seqZ.
  - rewrite <- list_fmap_compose.
    assert ((snd ∘ (λ N : Z, (N, N - 12))) <$> seqZ 12 116 = seqZ 0 116) as ->
      by (vm_compute; reflexivity).
    apply NoDup_seqZ.
  - intros g. rewrite <- list_fmap_compose.
    assert ((snd ∘ (λ N : Z, (N, N - 12))) <$> seqZ 12 116 = seqZ 0 116) as ->
      by (vm_compute; reflexivity).
    rewrite elem_of_seqZ. lia.
Qed.

Lemma note_map_shifts_by_12_witness :
  ∃ text,
    files (snd (main w_quiet)) !! "test.notemap" = Some text
    ∧ note_map text = (λ N, (N, N - 12)) <$> seqZ 12 116
    ∧ (∀ d g, (d, g) ∈ note_map text ↔ 12 ≤ d ≤ 127 ∧ g = d - 12)
    ∧ NoDup (fst <$> note_map text)
    ∧ NoDup (snd <$> note_map text)
    ∧ (∀ g, g ∈ snd <$> note_map text ↔ 0 ≤ g ≤ 115).
Proof. apply (note_map_shifts_by_12 w_quiet). vm_compute. reflexivity. Defined.

(** X6: in the file of a run without an exception the block of N starts
    at line 2 + 7 * (N - 12), counted from 0, and takes the seven lines from
    there; the lines of the file are the two of the header, the blocks of
    12..127 one after another with no line between them, and the one line
    of the trailer. *)
Theorem block_of_N_at_line (w : World) (N : Z) :
  fst (main w) = Ok () →
  12 ≤ N ≤ 127 →
  ∃ text,
    files (snd (main w)) !! "test.notemap" = Some text
    ∧ lines text !! Z.to_nat (2 + 7 * (N - 12)) = Some ("[Drum " +:+ str N +:+ "]")
    ∧ take 7 (drop (Z.to_nat (2 + 7 * (N - 12))) (lines text)) = section_lines N
    ∧ lines text
      = ["Test notemap file: test.notemap"; ""]
        ++ (range 12 128 ≫= section_lines)
        ++ ["# vim: sw=4 ts=4 wm=4 et ft=dosini"].
Proof.
  intros Hok HN. exists notemap_text. split; [by apply main_ok_text|].
  assert (N ∈ seqZ 12 116) as Hin by (apply elem_of_seqZ; lia).
  split; [|split; [|apply notemap_lines]]; clear HN; revert N Hin;
    apply Forall_forall; apply (bool_decide_unpack _); vm_compute; reflexivity.
Qed.

Lemma block_of_N_at_line_witness :
  ∃ text,
    files (snd (main w_quiet)) !! "test.notemap" = Some text
    ∧ lines text !! Z.to_nat (2 + 7 * (127 - 12)) = Some ("[Drum " +:+ str 127 +:+ "]")
    ∧ take 7 (drop (Z.to_nat (2 + 7 * (127 - 12))) (lines text)) = section_lines 127
    ∧ lines text
      = ["Test notemap file: test.notemap"; ""]
        ++ (range 12 128 ≫= section_lines)
        ++ ["# vim: sw=4 ts=4 wm=4 et ft=dosini"].
Proof.
  apply (block_of_N_at_line w_quiet 127); [vm_compute; reflexivity|lia].
Defined.
